(** * buffer-struct: a field-addressable view over a byte buffer

    Shallow embedding of [lib/index.js]: the [Struct] constructor, its
    prototype methods ([get], [set], [getPointer], [setPointer], [toBuffer],
    [toJSON]) and the [createStruct] factory, over an explicit heap of
    Node.js Buffers, followed by the properties of the view. *)

From Stdlib Require Import ZArith String Ascii DecimalString.
From Stdlib.Strings Require Import Byte.
From stdpp Require Import base option list gmap strings.


(** ** JavaScript values *)

(** Buffers live in a heap and are passed by reference. *)
Definition loc := nat.

Inductive value :=
| VUndefined
| VNull
| VBool (b : bool)
| VNum (n : Z)
| VNaN
| VStr (s : string)
| VObject (id : nat)
| VBuffer (l : loc).

(** [!v] is [negb (truthy v)]. *)
Definition truthy (v : value) : bool :=
  match v with
  | VUndefined | VNull | VNaN => false
  | VBool b => b
  | VNum n => negb (n =? 0)%Z
  | VStr s => negb (String.eqb s "")
  | VObject _ | VBuffer _ => true
  end.

Definition typeof (v : value) : string :=
  match v with
  | VUndefined => "undefined"
  | VNull | VObject _ | VBuffer _ => "object"
  | VBool _ => "boolean"
  | VNum _ | VNaN => "number"
  | VStr _ => "string"
  end.

(** ** Errors and results *)

Inductive error :=
| TypeError (msg : string)
| RangeError (msg : string).

Inductive result (A : Type) :=
| Ok (a : A)
| Throw (e : error).
Arguments Ok {A} a.
Arguments Throw {A} e.

Definition rbind {A B} (r : result A) (k : A -> result B) : result B :=
  match r with
  | Ok a => k a
  | Throw e => Throw e
  end.

Notation "'let?' x := r 'in' k" := (rbind r (fun x => k))
  (at level 10, x pattern, r at level 100, k at level 200).

(** ** The host: Buffers and [util.format] *)

Abbreviation heap := (list (list byte)).

Definition deref (h : heap) (l : loc) : list byte := default [] (h !! l).

(** [new Buffer(n)]: [n] bytes of memory, which the host hands out as it
    finds them; [raw i] is the byte found at position [i]. The Node.js the
    source is written for does not clear them, and the comment in [get]
    warns that raw memory is exposed; a host that clears new Buffers is
    the one with [raw i = x00] for all [i]. *)
Definition Buffer_new (raw : nat -> byte) (n : nat) : list byte :=
  map raw (seq 0 n).

Definition Buffer_alloc (raw : nat -> byte) (n : nat) (h : heap) : heap * loc :=
  (h ++ [Buffer_new raw n], length h).

Definition Buffer_isBuffer (v : value) : bool :=
  match v with
  | VBuffer _ => true
  | _ => false
  end.

(** [src.copy(target)]: both starts are 0; as many bytes as fit. *)
Definition Buffer_copy (src target : list byte) : list byte :=
  let n := Nat.min (length src) (length target) in
  take n src ++ drop n target.

Definition Buffer_toJSON (b : list byte) : list value :=
  map (fun x => VNum (Z.of_N (Byte.to_N x))) b.

Definition decimal (n : nat) : string :=
  NilZero.string_of_uint (Nat.to_uint n).

(** [Number(v)] printed in decimal, as [%d] does. A string that is not a
    run of digits gives [NaN]. *)
Definition format_d (v : value) : string :=
  match v with
  | VNum n =>
      if (n <? 0)%Z then "-" +:+ decimal (Z.to_nat (- n))
      else decimal (Z.to_nat n)
  | VBool true => "1"
  | VBool false | VNull => "0"
  | VStr "" => "0"
  | VStr s =>
      match NilEmpty.uint_of_string s with
      | Some u => decimal (Nat.of_uint u)
      | None => "NaN"
      end
  | VUndefined | VNaN | VObject _ | VBuffer _ => "NaN"
  end.

(** [util.format(f, args...)], for the [%d] placeholder. *)
Fixpoint format (f : string) (args : list value) : string :=
  match f with
  | EmptyString => EmptyString
  | String c rest =>
      match c, rest, args with
      | "%"%char, String "d"%char rest', a :: args' =>
          format_d a +:+ format rest' args'
      | _, _, _ => String c (format rest args)
      end
  end.

(** ** The view *)

(** What the source reads through [this] but never defines: [this.length],
    [this.__.fields], [this.__.read] and [this.__.write]. They belong to the
    layout a subclass supplies and are parameters here. [__read field] sees
    the bytes of [this.__.buf]; [__write field val] gives their new contents,
    or throws and leaves them alone. *)
Record Layout := {
  this_length : nat;
  __fields : list string;
  __read : string -> list byte -> value;
  __write : string -> value -> list byte -> result (list byte)
}.

(** The state a [Struct] instance carries: [this.__.buf], [this.__.caching],
    [this.__.cache], and the accessor properties defined on the instance. *)
Record View := {
  buf : option loc;
  caching : value;
  cache : gmap string value;
  accessors : list string
}.

Definition with_buf (l : loc) (this : View) : View :=
  {| buf := Some l; caching := caching this; cache := cache this;
     accessors := accessors this |}.

Definition with_caching (c : value) (this : View) : View :=
  {| buf := buf this; caching := c; cache := cache this;
     accessors := accessors this |}.

Definition with_cache (m : gmap string value) (this : View) : View :=
  {| buf := buf this; caching := caching this; cache := m;
     accessors := accessors this |}.

Definition with_accessors (a : list string) (this : View) : View :=
  {| buf := buf this; caching := caching this; cache := cache this;
     accessors := a |}.

(** Modelled from the spec: the [__] object of a fresh instance, which the
    source uses and never creates. The cache is a mapping from field names
    to pending values and starts empty; no buffer is bound yet. *)
Definition fresh_instance : View :=
  {| buf := None; caching := VUndefined; cache := ∅; accessors := [] |}.

(** The bytes of the bound buffer, and their replacement in the heap. *)
Definition live (h : heap) (this : View) : list byte :=
  match buf this with
  | Some l => deref h l
  | None => []
  end.

Definition store (h : heap) (this : View) (bs : list byte) : heap :=
  match buf this with
  | Some l => <[l := bs]> h
  | None => h
  end.

(** [Struct.prototype.get] *)
Definition get (L : Layout) (h : heap) (this : View) (field : string) : value :=
  match truthy (caching this), cache this !! field with
  | true, Some v => v
  | _, _ => __read L field (live h this)
  end.

(** [Struct.prototype.set] *)
Definition set (L : Layout) (h : heap) (this : View) (field : string)
    (val : value) : result (heap * View) :=
  if truthy (caching this) then
    Ok (h, with_cache (<[field := val]> (cache this)) this)
  else
    let? bs := __write L field val (live h this) in
    Ok (store h this bs, this).

(** [Struct.prototype.getPointer] *)
Definition getPointer (this : View) : value :=
  match buf this with
  | Some l => VBuffer l
  | None => VUndefined
  end.

Definition setPointer_TypeError (b : value) : error :=
  TypeError (format
    "`Struct#setPointer(buf)` expects a Buffer, but a `%d` was given."
    [VStr (typeof b)]).

Definition setPointer_RangeError (needed given : nat) : error :=
  RangeError (format
    ("The given Buffer for `Struct#setPointer(buf)` was too short." +:+
     "At least %d bytes were needed, but only %d bytes were given.")
    [VNum (Z.of_nat needed); VNum (Z.of_nat given)]).

(** [Struct.prototype.setPointer] *)
Definition setPointer (L : Layout) (raw : nat -> byte) (h : heap)
    (this : View) (b start : value) : result (heap * View) :=
  if negb (truthy b) then
    let '(h', l) := Buffer_alloc raw (this_length L) h in
    Ok (h', with_buf l this)
  else
    match b with
    | VBuffer l =>
        if (length (deref h l) <? this_length L)%nat then
          Throw (setPointer_RangeError (this_length L) (length (deref h l)))
        else Ok (h, with_buf l this)
    | _ => Throw (setPointer_TypeError b)
    end.

(** [Struct.prototype.toBuffer] *)
Definition toBuffer (L : Layout) (raw : nat -> byte) (h : heap)
    (this : View) : heap * value :=
  let '(h', l) := Buffer_alloc raw (this_length L) h in
  (<[l := Buffer_copy (live h' this) (deref h' l)]> h', VBuffer l).

(** [Struct.prototype.toJSON] *)
Definition toJSON (h : heap) (this : View) : list value :=
  Buffer_toJSON (live h this).

(** How the host names a value in the message of an exception. *)
Definition detail (v : value) : string :=
  match v with
  | VUndefined => "undefined"
  | VNull => "null"
  | VBool true => "true"
  | VBool false => "false"
  | VNum _ | VNaN => format_d v
  | VStr s => s
  | VObject _ => "#<Object>"
  | VBuffer _ => "#<Buffer>"
  end.

Definition no_bind_message (v : value) : string :=
  match v with
  | VUndefined | VNull => "Cannot call method 'bind' of " +:+ detail v
  | _ => "Object " +:+ detail v +:+ " has no method 'bind'"
  end.

(** [this.get.bind(this, field)] and [this.set.bind(this, field)]: the
    property [name] is read from the instance each time. It is the
    prototype's method, which can be bound, as long as the instance has no
    accessor of that name; once it has one, the getter of that accessor
    answers with the value of the field so named, and a value has no
    [bind]: the call throws. *)
Definition bind_method (L : Layout) (h : heap) (this : View)
    (name : string) : result unit :=
  if bool_decide (name ∈ accessors this) then
    Throw (TypeError (no_bind_message (get L h this name)))
  else Ok tt.

(** The helper [defineProperty]: both bound methods are made first, then
    [Object.defineProperty] installs the accessor pair; the host refuses to
    redefine a property that the instance already has. *)
Definition defineProperty (L : Layout) (h : heap) (this : View)
    (field : string) : result View :=
  let? _ := bind_method L h this "get" in
  let? _ := bind_method L h this "set" in
  if bool_decide (field ∈ accessors this) then
    Throw (TypeError ("Cannot redefine property: " +:+ field))
  else Ok (with_accessors (accessors this ++ [field]) this).

Fixpoint forEach (f : View -> string -> result View) (l : list string)
    (this : View) : result View :=
  match l with
  | [] => Ok this
  | x :: l' => let? this' := f this x in forEach f l' this'
  end.

(** The body of [Struct] once [this] is an instance. *)
Definition Struct_init (L : Layout) (raw : nat -> byte) (h : heap)
    (this : View) (b c : value) : result (heap * View) :=
  let? (h1, this1) := setPointer L raw h this b VUndefined in
  let this2 := with_caching c this1 in
  let? this3 := forEach (defineProperty L h1) (__fields L) this2 in
  Ok (h1, this3).

(** [Struct(buf, caching)]; [this] is [Some] instance when
    [this instanceof Struct] holds and [None] otherwise. *)
Definition Struct (L : Layout) (raw : nat -> byte) (h : heap)
    (this : option View) (b c : value) : result (heap * View) :=
  match this with
  | None => Struct_init L raw h fresh_instance b VUndefined
  | Some t => Struct_init L raw h t b c
  end.

(** [new Struct(buf, caching)] and the plain call [Struct(buf, caching)]. *)
Definition Struct_new (L : Layout) (raw : nat -> byte) (h : heap)
    (b c : value) : result (heap * View) :=
  Struct L raw h (Some fresh_instance) b c.

Definition Struct_call (L : Layout) (raw : nat -> byte) (h : heap)
    (b c : value) : result (heap * View) :=
  Struct L raw h None b c.

(** [createStruct()]: the subclass constructor [_] it returns, as called with
    [new], so that [this] is a fresh instance of [_], which inherits from
    [Struct]. The function declares no parameter and looks at none; what a
    caller passes is [arguments]. *)
Record FieldDescriptor := {
  fd_name : string;
  fd_offset : nat;
  fd_byteLength : nat;
  fd_has_read : bool;
  fd_has_write : bool
}.

Definition constructor := heap -> value -> value -> result (heap * View).

Definition createStruct (L : Layout) (raw : nat -> byte)
    (arguments : list FieldDescriptor) : result constructor :=
  Ok (fun h b c => Struct L raw h (Some fresh_instance) b c).

(** ** Property lookup on an instance *)

Inductive method :=
| M_get | M_set | M_getPointer | M_setPointer | M_toBuffer | M_toJSON
| M_toString.

(** The functions assigned to [Struct.prototype], all of them. *)
Definition Struct_prototype : list (string * method) :=
  [("get", M_get); ("set", M_set); ("getPointer", M_getPointer);
   ("setPointer", M_setPointer); ("toBuffer", M_toBuffer);
   ("toJSON", M_toJSON); ("toString", M_toString)].

(** What the host's [Object.prototype] adds at the end of the chain. *)
Definition Object_prototype : list string :=
  ["constructor"; "hasOwnProperty"; "isPrototypeOf"; "propertyIsEnumerable";
   "toLocaleString"; "toString"; "valueOf"].

Inductive property :=
| Accessor (field : string)
| Method (m : method)
| Builtin (name : string)
| Absent.

Fixpoint assoc {A} (k : string) (l : list (string * A)) : option A :=
  match l with
  | [] => None
  | (k', a) :: l' => if String.eqb k k' then Some a else assoc k l'
  end.

(** [this[name]]: own accessors first, then the prototype chain. *)
Definition lookup_property (this : View) (name : string) : property :=
  if bool_decide (name ∈ accessors this) then Accessor name
  else match assoc name Struct_prototype with
       | Some m => Method m
       | None =>
           if bool_decide (name ∈ Object_prototype) then Builtin name
           else Absent
       end.

(** A Buffer a caller holds is in the heap. *)
Definition valid_ref (h : heap) (b : value) : Prop :=
  match b with
  | VBuffer l => l < length h
  | _ => True
  end.

(** ** Sequences of calls on a view *)

Inductive op :=
| OpGet (field : string)
| OpSet (field : string) (val : value)
| OpGetPointer
| OpSetPointer (b start : value)
| OpToBuffer
| OpToJSON.

Inductive reply :=
| RValue (v : value)
| RArray (vs : list value)
| RVoid.

Definition step (L : Layout) (raw : nat -> byte) (st : heap * View)
    (o : op) : heap * View * result reply :=
  let '(h, this) := st in
  match o with
  | OpGet f => (h, this, Ok (RValue (get L h this f)))
  | OpSet f v =>
      match set L h this f v with
      | Ok (h', this') => (h', this', Ok RVoid)
      | Throw e => (h, this, Throw e)
      end
  | OpGetPointer => (h, this, Ok (RValue (getPointer this)))
  | OpSetPointer b start =>
      match setPointer L raw h this b start with
      | Ok (h', this') => (h', this', Ok RVoid)
      | Throw e => (h, this, Throw e)
      end
  | OpToBuffer =>
      let '(h', v) := toBuffer L raw h this in (h', this, Ok (RValue v))
  | OpToJSON => (h, this, Ok (RArray (toJSON h this)))
  end.

(** The caller goes on after an exception; the replies are kept in order. *)
Fixpoint run (L : Layout) (raw : nat -> byte) (ops : list op)
    (st : heap * View) : heap * View * list (result reply) :=
  match ops with
  | [] => (st, [])
  | o :: ops' =>
      let '(st', r) := step L raw st o in
      let '(st'', rs) := run L raw ops' st' in
      (st'', r :: rs)
  end.

Definition is_SetPointer (o : op) : bool :=
  match o with
  | OpSetPointer _ _ => true
  | _ => false
  end.

Definition sets_field (f : string) (o : op) : bool :=
  match o with
  | OpSet g _ => String.eqb f g
  | _ => false
  end.

(** A call that returns leaves a triple of heap, view and reply; most
    cases of [step] return the state they were given. *)
Ltac same_state := by intros [= <- <- <-].

(** ** What a bound view relies on *)



(** Every Buffer handed to [setPointer] exists when it is handed over. *)
Fixpoint ops_valid (L : Layout) (raw : nat -> byte) (ops : list op)
    (st : heap * View) : Prop :=
  match ops with
  | [] => True
  | o :: ops' =>
      match o with
      | OpSetPointer b _ => valid_ref st.1 b
      | _ => True
      end
      ∧ ops_valid L raw ops' (step L raw st o).1
  end.

(** The value of the last [set(f, _)] among [ops], if there is one. *)
Fixpoint last_set (f : string) (ops : list op) : option value :=
  match ops with
  | [] => None
  | o :: ops' =>
      match last_set f ops' with
      | Some v => Some v
      | None =>
          match o with
          | OpSet g v => if String.eqb f g then Some v else None
          | _ => None
          end
      end
  end.

(** ** An example layout

    One unsigned byte [a] at offset 0 and one little-endian 32-bit unsigned
    integer [b] at offset 1, five bytes in all. *)

Definition Z_of_byte (x : byte) : Z := Z.of_N (Byte.to_N x).

Definition byte_of_Z (z : Z) : byte :=
  default x00 (Byte.of_N (Z.to_N (z mod 256))).

Definition byte_at (bs : list byte) (i : nat) : Z :=
  Z_of_byte (default x00 (bs !! i)).

Definition readUInt8 (bs : list byte) (off : nat) : value :=
  VNum (byte_at bs off).

Definition readUInt32LE (bs : list byte) (off : nat) : value :=
  VNum (byte_at bs off + Z.shiftl (byte_at bs (off + 1)) 8
        + Z.shiftl (byte_at bs (off + 2)) 16
        + Z.shiftl (byte_at bs (off + 3)) 24).

Definition out_of_bounds : error := TypeError "value is out of bounds".

Definition writeUInt8 (bs : list byte) (off : nat) (v : value)
    : result (list byte) :=
  match v with
  | VNum n =>
      if ((0 <=? n) && (n <? 256))%Z then Ok (<[off := byte_of_Z n]> bs)
      else Throw out_of_bounds
  | _ => Throw out_of_bounds
  end.

Definition writeUInt32LE (bs : list byte) (off : nat) (v : value)
    : result (list byte) :=
  match v with
  | VNum n =>
      if ((0 <=? n) && (n <? 2 ^ 32))%Z then
        Ok (<[off + 3 := byte_of_Z (Z.shiftr n 24)]>
           (<[off + 2 := byte_of_Z (Z.shiftr n 16)]>
           (<[off + 1 := byte_of_Z (Z.shiftr n 8)]>
           (<[off := byte_of_Z n]> bs))))
      else Throw out_of_bounds
  | _ => Throw out_of_bounds
  end.

Definition example_layout : Layout :=
  {| this_length := 5;
     __fields := ["a"; "b"];
     __read := fun f bs =>
       if String.eqb f "a" then readUInt8 bs 0
       else if String.eqb f "b" then readUInt32LE bs 1
       else VUndefined;
     __write := fun f v bs =>
       if String.eqb f "a" then writeUInt8 bs 0 v
       else if String.eqb f "b" then writeUInt32LE bs 1 v
       else Ok bs |}.

(** Two hosts: one that zero-fills what [new Buffer(n)] hands out, and one
    whose free memory still holds [0xff] bytes. *)
Definition zeroed : nat -> byte := fun _ => x00.

(** A heap with one five-byte Buffer and one eight-byte Buffer, two field
    descriptors, and a view of the example layout bound to the first. *)
Definition example_heap : heap :=
  [[x00; x00; x00; x00; x00]; [x01; x02; x03; x04; x05; x06; x07; x08]].

Definition example_view (c : value) : View :=
  {| buf := Some 0; caching := c; cache := ∅; accessors := ["a"; "b"] |}.

Definition field_a : FieldDescriptor :=
  {| fd_name := "a"; fd_offset := 0; fd_byteLength := 1;
     fd_has_read := true; fd_has_write := true |}.

Definition field_unreadable : FieldDescriptor :=
  {| fd_name := "c"; fd_offset := 1; fd_byteLength := 4;
     fd_has_read := false; fd_has_write := false |}.

(** The example layout with the name [a] declared twice. *)
Definition twice_layout : Layout :=
  {| this_length := this_length example_layout;
     __fields := ["a"; "a"];
     __read := __read example_layout;
     __write := __write example_layout |}.

(** The example layout with a first field called [get]. *)
Definition get_layout : Layout :=
  {| this_length := this_length example_layout;
     __fields := ["get"; "a"];
     __read := __read example_layout;
     __write := __write example_layout |}.

(** A caching view of the example layout with [7] pending for [a]. *)
Definition pending_view : View :=
  with_cache (<["a" := VNum 7]> ∅) (example_view (VBool true)).

(** ** The scenario of the documentation *)

Example scenario_immediate :
  match Struct_new example_layout zeroed [] VUndefined (VBool false) with
  | Ok st =>
      let '(h, v, _) :=
        run example_layout zeroed [OpSet "a" (VNum 7); OpSet "b" (VNum 1000)] st in
      toJSON h v
  | Throw _ => []
  end = [VNum 7; VNum 232; VNum 3; VNum 0; VNum 0].
Proof. vm_compute. reflexivity. Qed.

Example scenario_cached :
  match Struct_new example_layout zeroed [] VUndefined (VBool true) with
  | Ok st =>
      let '(h, v, rs) :=
        run example_layout zeroed
          [OpSet "a" (VNum 7); OpSet "b" (VNum 1000); OpGet "a"; OpGet "b"] st in
      (toJSON h v, rs)
  | Throw _ => ([], [])
  end = ([VNum 0; VNum 0; VNum 0; VNum 0; VNum 0],
         [Ok RVoid; Ok RVoid; Ok (RValue (VNum 7)); Ok (RValue (VNum 1000))]).
Proof. vm_compute. reflexivity. Qed.

Example shadowed_get :
  Struct_new get_layout zeroed [] VUndefined VUndefined
  = Throw (TypeError "Cannot call method 'bind' of undefined").
Proof. vm_compute. reflexivity. Qed.

Example format_range_message :
  setPointer_RangeError 5 3 = RangeError
    ("The given Buffer for `Struct#setPointer(buf)` was too short." +:+
     "At least 5 bytes were needed, but only 3 bytes were given.").
Proof. vm_compute. reflexivity. Qed.

Example format_type_message :
  setPointer_TypeError (VStr "abc") = TypeError
    "`Struct#setPointer(buf)` expects a Buffer, but a `NaN` was given.".
Proof. vm_compute. reflexivity. Qed.

(** * Properties *)

(** ** Host facts *)

Lemma Buffer_new_length raw n : length (Buffer_new raw n) = n.
Proof. unfold Buffer_new. by rewrite length_map, length_seq. Qed.





Lemma format_d_typeof b : format_d (VStr (typeof b)) = "NaN".
Proof. destruct b; reflexivity. Qed.


Lemma setPointer_TypeError_message b :
  setPointer_TypeError b = TypeError
    "`Struct#setPointer(buf)` expects a Buffer, but a `NaN` was given.".
Proof.
  unfold setPointer_TypeError.
  assert (Hfmt : ∀ x,
    format "`Struct#setPointer(buf)` expects a Buffer, but a `%d` was given."
      [x]
    = "`Struct#setPointer(buf)` expects a Buffer, but a `" +:+ format_d x
      +:+ "` was given.") by (intros x; reflexivity).
  rewrite Hfmt, format_d_typeof. reflexivity.
Qed.

(** ** Defining the accessors *)

Lemma defineProperty_Ok L h this field this' :
  defineProperty L h this field = Ok this' →
  ("get" ∉ accessors this) ∧ ("set" ∉ accessors this)
  ∧ (field ∉ accessors this)
  ∧ this' = with_accessors (accessors this ++ [field]) this.
Proof.
  unfold defineProperty, bind_method.
  case_bool_decide; [discriminate|]. case_bool_decide; [discriminate|].
  simpl. case_bool_decide; [discriminate|].
  intros [= <-]. done.
Qed.

Lemma defineProperty_fresh L h this field :
  "get" ∉ accessors this → "set" ∉ accessors this →
  field ∉ accessors this →
  defineProperty L h this field
  = Ok (with_accessors (accessors this ++ [field]) this).
Proof.
  intros Hget Hset Hfield. unfold defineProperty, bind_method.
  by rewrite !bool_decide_false.
Qed.

Lemma defineProperty_throws L h this field e :
  defineProperty L h this field = Throw e → ∃ msg, e = TypeError msg.
Proof.
  unfold defineProperty, bind_method.
  case_bool_decide; [intros [= <-]; eauto|].
  case_bool_decide; [intros [= <-]; eauto|].
  simpl. case_bool_decide; [intros [= <-]; eauto|discriminate].
Qed.

Lemma forEach_defineProperty_Ok L h l : ∀ this this',
  forEach (defineProperty L h) l this = Ok this' →
  this' = with_accessors (accessors this ++ l) this.
Proof.
  induction l as [|x l IH]; intros this this'; simpl.
  - intros [= <-]. rewrite app_nil_r. by destruct this.
  - destruct (defineProperty L h this x) as [t|e] eqn:Hd; simpl;
      [|discriminate].
    apply defineProperty_Ok in Hd as (_ & _ & _ & ->). intros H%IH.
    subst this'. unfold with_accessors; simpl. by rewrite <- app_assoc.
Qed.

Lemma forEach_defineProperty_NoDup L h l : ∀ this,
  NoDup (accessors this ++ l) →
  "get" ∉ accessors this ++ l → "set" ∉ accessors this ++ l →
  forEach (defineProperty L h) l this
  = Ok (with_accessors (accessors this ++ l) this).
Proof.
  induction l as [|x l IH]; intros this Hnd Hget Hset; simpl.
  - rewrite app_nil_r. by destruct this.
  - rewrite defineProperty_fresh; simpl.
    + rewrite IH; simpl; rewrite <- ?app_assoc; try done.
    + intros Hin. apply Hget. apply elem_of_app. by left.
    + intros Hin. apply Hset. apply elem_of_app. by left.
    + intros Hin. apply NoDup_app in Hnd as (_ & Hdisj & _).
      apply (Hdisj x Hin). left.
Qed.

Lemma forEach_defineProperty_dup L h l : ∀ this,
  ¬ NoDup (accessors this ++ l) → NoDup (accessors this) →
  ∃ msg, forEach (defineProperty L h) l this = Throw (TypeError msg).
Proof.
  induction l as [|x l IH]; intros this Hdup Hnd; simpl.
  - rewrite app_nil_r in Hdup. done.
  - destruct (defineProperty L h this x) as [t|e] eqn:Hd; simpl.
    + apply defineProperty_Ok in Hd as (_ & _ & Hin & ->).
      apply IH; simpl.
      * by rewrite <- app_assoc.
      * apply NoDup_app. repeat split; [done| |apply NoDup_singleton].
        intros y Hy ->%list_elem_of_singleton. done.
    + apply defineProperty_throws in Hd as [msg ->]. eauto.
Qed.

(** An accessor called [get] or [set] stops the definition of any further
    accessor. *)
Lemma forEach_defineProperty_shadowed L h l this name :
  name = "get" ∨ name = "set" →
  name ∈ accessors this →
  l ≠ [] →
  ∃ msg, forEach (defineProperty L h) l this = Throw (TypeError msg).
Proof.
  intros Hname Hin Hl. destruct l as [|x l]; [done|]. simpl.
  unfold defineProperty, bind_method.
  destruct Hname as [-> | ->].
  - rewrite bool_decide_true by done. simpl. eauto.
  - case_bool_decide; simpl; [eauto|].
    rewrite bool_decide_true by done. simpl. eauto.
Qed.

(** ** Construction *)

Section Methods.

Context (L : Layout) (raw : nat → byte).

Lemma setPointer_start_irrelevant h this b s1 s2 :
  setPointer L raw h this b s1 = setPointer L raw h this b s2.
Proof. reflexivity. Qed.


Lemma setPointer_Buffer h this l start :
  this_length L ≤ length (deref h l) →
  setPointer L raw h this (VBuffer l) start = Ok (h, with_buf l this).
Proof.
  intros Hle. unfold setPointer; simpl.
  destruct (Nat.ltb_spec (length (deref h l)) (this_length L)); [lia|done].
Qed.

(** X5. A [setPointer] that succeeds, on an argument that is in the heap
    if it is a Buffer, leaves the view bound to a Buffer of the heap with at
    least [this.length] bytes and changes nothing else of the view; the heap
    does not shrink and the Buffers it held keep their bytes. *)
Lemma setPointer_Ok h this b start h' this' :
  valid_ref h b →
  setPointer L raw h this b start = Ok (h', this') →
  ∃ l, this' = with_buf l this ∧ l < length h'
       ∧ this_length L ≤ length (deref h' l)
       ∧ length h ≤ length h'
       ∧ (∀ k, k < length h → h' !! k = h !! k).
Proof.
  intros Hv. unfold setPointer. destruct (truthy b) eqn:Hb; simpl.
  - destruct b; try discriminate. simpl in Hv.
    destruct (Nat.ltb_spec (length (deref h l)) (this_length L)) as [|Hle];
      [discriminate|].
    intros [= <- <-]. exists l. done.
  - intros [= <- <-]. exists (length h).
    split; [done|]. split; [rewrite length_app; simpl; lia|].
    split; [|split].
    + unfold deref. rewrite lookup_app_r by done.
      rewrite Nat.sub_diag; simpl. by rewrite Buffer_new_length.
    + rewrite length_app; lia.
    + intros k Hk. by rewrite lookup_app_l.
Qed.

Lemma setPointer_binds h this b start h' this' :
  setPointer L raw h this b start = Ok (h', this') →
  ∃ l, this' = with_buf l this.
Proof.
  unfold setPointer. destruct (negb (truthy b)); simpl.
  - intros [= <- <-]. eauto.
  - destruct b; try discriminate.
    destruct (length (deref h l) <? this_length L)%nat; [discriminate|].
    intros [= <- <-]. eauto.
Qed.

Lemma Struct_init_Ok h this b c h' this' :
  Struct_init L raw h this b c = Ok (h', this') →
  ∃ l, setPointer L raw h this b VUndefined = Ok (h', with_buf l this)
       ∧ this' = {| buf := Some l; caching := c; cache := cache this;
                    accessors := accessors this ++ __fields L |}.
Proof.
  unfold Struct_init.
  destruct (setPointer L raw h this b VUndefined) as [[h1 t1]|e] eqn:Hs;
    simpl; [|discriminate].
  destruct (forEach (defineProperty L h1) (__fields L) (with_caching c t1))
    as [t3|e] eqn:Hf; simpl; [|discriminate].
  intros [= <- <-]. apply setPointer_binds in Hs as Hl. destruct Hl as [l ->].
  exists l. split; [done|]. by apply forEach_defineProperty_Ok in Hf as ->.
Qed.

Lemma Struct_init_succeeds h this b c h' l :
  NoDup (accessors this ++ __fields L) →
  "get" ∉ accessors this ++ __fields L →
  "set" ∉ accessors this ++ __fields L →
  setPointer L raw h this b VUndefined = Ok (h', with_buf l this) →
  Struct_init L raw h this b c
  = Ok (h', {| buf := Some l; caching := c; cache := cache this;
               accessors := accessors this ++ __fields L |}).
Proof.
  intros Hnd Hget Hset Hs. unfold Struct_init. rewrite Hs; simpl.
  by rewrite forEach_defineProperty_NoDup.
Qed.

Lemma Struct_init_throws h this b c e :
  setPointer L raw h this b VUndefined = Throw e →
  Struct_init L raw h this b c = Throw e.
Proof. intros Hs. unfold Struct_init. by rewrite Hs. Qed.

(** ** Caching mode: [set] then [get] *)

(** C2. With caching enabled, [set(f, v)] succeeds without touching the
    heap, so no byte of any buffer changes, and a [get(f)] that follows
    returns [v] itself, whatever the codec of [f] would decode. *)
Theorem get_after_cached_set h this f v :
  truthy (caching this) = true →
  ∃ this',
    set L h this f v = Ok (h, this')
    ∧ get L h this' f = v
    ∧ buf this' = buf this
    ∧ live h this' = live h this.
Proof.
  intros Hc. exists (with_cache (<[f := v]> (cache this)) this).
  unfold set, get. rewrite Hc. simpl. rewrite Hc.
  by rewrite lookup_insert_eq.
Qed.

(** ** Validation of the supplied buffer *)


(** C6. An argument that is truthy and is not a Buffer makes [setPointer],
    [new Struct(buf, caching)] and the plain call [Struct(buf, caching)]
    throw a TypeError, returned by the call itself. *)
Theorem non_buffer_TypeError h this b start c :
  truthy b = true →
  Buffer_isBuffer b = false →
  let e := TypeError
    "`Struct#setPointer(buf)` expects a Buffer, but a `NaN` was given." in
  setPointer L raw h this b start = Throw e
  ∧ Struct_new L raw h b c = Throw e
  ∧ Struct_call L raw h b c = Throw e.
Proof.
  intros Ht Hb e.
  assert (Hs : ∀ t s, setPointer L raw h t b s = Throw e).
  { intros t s. unfold setPointer. rewrite Ht; simpl.
    destruct b; try discriminate; by rewrite setPointer_TypeError_message. }
  split; [apply Hs|].
  split; apply Struct_init_throws, Hs.
Qed.

(** ** The constructor called without [new] *)

(** C10. Called as a plain function, [Struct(buf, caching)] is
    [new Struct(buf)]: the flag is not passed on, and a view that comes
    back has [caching] undefined, hence disabled, whatever flag was given. *)
Theorem Struct_call_drops_caching h b c :
  Struct_call L raw h b c = Struct_new L raw h b VUndefined
  ∧ ∀ h' v, Struct_call L raw h b c = Ok (h', v) →
            caching v = VUndefined ∧ truthy (caching v) = false.
Proof.
  split; [reflexivity|].
  intros h' v Hc. unfold Struct_call, Struct in Hc.
  apply Struct_init_Ok in Hc as (l & _ & ->). done.
Qed.

(** ** Caching disabled *)

Lemma step_caching h this o h' this' r :
  step L raw (h, this) o = (h', this', r) → caching this' = caching this.
Proof.
  destruct o as [f|f x| |b s| |]; simpl; try same_state.
  - unfold set. destruct (truthy (caching this)); simpl; [same_state|].
    destruct (__write L f x (live h this)); simpl; same_state.
  - destruct (setPointer L raw h this b s) as [[h1 t1]|e] eqn:Hs;
      [|same_state].
    intros [= <- <- <-]. by apply setPointer_binds in Hs as [l ->].
Qed.

Lemma step_cache_uncached h this o h' this' r :
  truthy (caching this) = false →
  step L raw (h, this) o = (h', this', r) → cache this' = cache this.
Proof.
  intros Hc. destruct o as [f|f x| |b s| |]; simpl; try same_state.
  - unfold set. rewrite Hc.
    destruct (__write L f x (live h this)); simpl; same_state.
  - destruct (setPointer L raw h this b s) as [[h1 t1]|e] eqn:Hs;
      [|same_state].
    intros [= <- <- <-]. by apply setPointer_binds in Hs as [l ->].
Qed.

Lemma run_uncached ops : ∀ h this h' this' rs,
  truthy (caching this) = false →
  run L raw ops (h, this) = (h', this', rs) →
  caching this' = caching this ∧ cache this' = cache this.
Proof.
  induction ops as [|o ops IH]; intros h this h' this' rs Hc; cbn [run].
  - by intros [= <- <- <-].
  - destruct (step L raw (h, this) o) as [[h1 t1] r] eqn:Hstep.
    destruct (run L raw ops (h1, t1)) as [[h2 t2] rs'] eqn:Hrun.
    intros [= <- <- <-].
    pose proof (step_caching _ _ _ _ _ _ Hstep) as Hc1.
    pose proof (step_cache_uncached _ _ _ _ _ _ Hc Hstep) as Hm1.
    assert (Hc' : truthy (caching t1) = false) by congruence.
    destruct (IH _ _ _ _ _ Hc' Hrun) as [Hc2 Hm2].
    split; congruence.
Qed.

Lemma step_keeps_binding h this o l :
  buf this = Some l → l < length h →
  match o with
  | OpSetPointer b _ => valid_ref h b
  | _ => True
  end →
  ∃ l', buf (step L raw (h, this) o).1.2 = Some l'
        ∧ l' < length (step L raw (h, this) o).1.1.
Proof.
  intros Hb Hl Hv.
  destruct o as [f|f x| |b s| |]; simpl; try (by exists l).
  - unfold set. destruct (truthy (caching this)); simpl; [by exists l|].
    destruct (__write L f x (live h this)) as [bs'|e]; simpl; [|by exists l].
    exists l. split; [done|]. unfold store. rewrite Hb.
    by rewrite length_insert.
  - destruct (setPointer L raw h this b s) as [[h1 t1]|e] eqn:Hs; simpl;
      [|by exists l].
    apply setPointer_Ok in Hs as (l1 & -> & Hl1 & _); [|done].
    by exists l1.
  - exists l. split; [done|]. rewrite length_insert, length_app. lia.
Qed.

Lemma run_keeps_binding ops : ∀ h this h' this' rs l,
  buf this = Some l → l < length h →
  ops_valid L raw ops (h, this) →
  run L raw ops (h, this) = (h', this', rs) →
  ∃ l', buf this' = Some l' ∧ l' < length h'.
Proof.
  induction ops as [|o ops IH]; intros h this h' this' rs l Hb Hl Hv;
    cbn [run].
  - intros [= <- <- <-]. by exists l.
  - destruct Hv as [Hvo Hvs].
    destruct (step_keeps_binding h this o l Hb Hl Hvo) as (l1 & Hb1 & Hl1).
    destruct (step L raw (h, this) o) as [[h1 t1] r] eqn:Hstep.
    destruct (run L raw ops (h1, t1)) as [[h2 t2] rs'] eqn:Hrun.
    intros [= <- <- <-]. simpl in Hb1, Hl1, Hvs.
    exact (IH _ _ _ _ _ _ Hb1 Hl1 Hvs Hrun).
Qed.

(** C9. A view constructed with a falsy caching flag keeps an empty cache
    through every sequence of calls. In every state it reaches it is bound
    to a Buffer of the heap, and there [get] is the codec's read of that
    Buffer's bytes, while [set] runs the codec's write on them at once:
    when the write succeeds, the heap that [set] leaves holds the written
    bytes in the bound Buffer, every other Buffer as before, and each [get]
    that follows decodes the written bytes; when the write throws, so does
    [set]. The Buffers handed to the constructor and to [setPointer] are
    Buffers of the heap. *)
Theorem uncached_view_is_direct h b c h0 v0 ops h1 v1 rs :
  truthy c = false →
  valid_ref h b →
  Struct_new L raw h b c = Ok (h0, v0) →
  ops_valid L raw ops (h0, v0) →
  run L raw ops (h0, v0) = (h1, v1, rs) →
  cache v1 = ∅
  ∧ ∃ l bs,
      buf v1 = Some l
      ∧ h1 !! l = Some bs
      ∧ (∀ f, get L h1 v1 f = __read L f bs)
      ∧ (∀ f x bs', __write L f x bs = Ok bs' →
           set L h1 v1 f x = Ok (<[l := bs']> h1, v1)
           ∧ <[l := bs']> h1 !! l = Some bs'
           ∧ (∀ l', l' ≠ l → <[l := bs']> h1 !! l' = h1 !! l')
           ∧ ∀ g, get L (<[l := bs']> h1) v1 g = __read L g bs')
      ∧ (∀ f x e, __write L f x bs = Throw e → set L h1 v1 f x = Throw e).
Proof.
  intros Hc Hvb Hnew Hvalid Hrun.
  apply Struct_init_Ok in Hnew as (l0 & Hs & ->).
  apply setPointer_Ok in Hs as (l0' & Heq & Hl0 & _); [|done].
  apply (f_equal buf) in Heq. simpl in Heq. injection Heq as <-.
  pose proof Hrun as Hbind.
  eapply (run_keeps_binding ops h0 _ h1 v1 rs l0) in Hbind;
    [|reflexivity|exact Hl0|exact Hvalid].
  destruct Hbind as (l & Hb & Hl).
  apply run_uncached in Hrun as [Hc1 Hm1]; [|done]. simpl in Hc1, Hm1.
  destruct (lookup_lt_is_Some_2 h1 l Hl) as [bs Hbs].
  assert (Hderef : ∀ h2, h2 !! l = Some bs → live h2 v1 = bs).
  { intros h2 Hh2. unfold live. rewrite Hb. unfold deref.
    by rewrite Hh2. }
  split; [done|]. exists l, bs. split; [done|]. split; [exact Hbs|]. split.
  { intros f. unfold get. by rewrite Hc1, Hc, (Hderef h1 Hbs). }
  split.
  - intros f x bs' Hw.
    assert (Hins : <[l := bs']> h1 !! l = Some bs')
      by by apply list_lookup_insert_eq.
    split; [|split; [exact Hins|split]].
    + unfold set. rewrite Hc1, Hc, (Hderef h1 Hbs), Hw. simpl.
      unfold store. by rewrite Hb.
    + intros l' Hne. apply list_lookup_insert_ne. by unfold loc in *.
    + intros g. unfold get.
      assert (Hl' : live (<[l := bs']> h1) v1 = bs').
      { unfold live. rewrite Hb. unfold deref. by rewrite Hins. }
      by rewrite Hc1, Hc, Hl'.
  - intros f x e Hw. unfold set. by rewrite Hc1, Hc, (Hderef h1 Hbs), Hw.
Qed.

(** ** [toBuffer] *)


(** ** No buffer supplied *)


(** ** The factory *)

(** C8, as the code has it. [createStruct] declares no parameter and checks
    nothing: whatever field list it is called with, it returns a
    constructor, and that constructor is [Struct] called with [new]. *)
Theorem createStruct_never_fails (arguments : list FieldDescriptor) :
  ∃ k, createStruct L raw arguments = Ok k
       ∧ ∀ h b c, k h b c = Struct_new L raw h b c.
Proof. eexists. split; [reflexivity|]. reflexivity. Qed.

(** A name that occurs twice among [this.__.fields] is noticed only when a
    view is constructed, by [Object.defineProperty]. *)
Lemma repeated_field_surfaces_at_construction h b c :
  ¬ NoDup (__fields L) →
  ∃ e, Struct_new L raw h b c = Throw e.
Proof.
  intros Hdup. unfold Struct_new, Struct, Struct_init.
  destruct (setPointer L raw h fresh_instance b VUndefined)
    as [[h1 t1]|e] eqn:Hs; simpl; [|eauto].
  apply setPointer_binds in Hs as [l ->].
  destruct (forEach_defineProperty_dup L h1 (__fields L)
              (with_caching c (with_buf l fresh_instance)))
    as [msg ->]; simpl; [done|apply NoDup_nil_2|eauto].
Qed.

(** ** Caching mode: a pending value stays *)

Lemma step_cached_keeps_value h this o h' this' r f v :
  truthy (caching this) = true →
  sets_field f o = false →
  cache this !! f = Some v →
  step L raw (h, this) o = (h', this', r) →
  cache this' !! f = Some v.
Proof.
  intros Hc Ho Hf.
  destruct o as [g|g x| |b s| |]; simpl; try same_state.
  - unfold set. rewrite Hc. intros [= <- <- <-]. simpl.
    simpl in Ho. apply String.eqb_neq in Ho.
    by rewrite lookup_insert_ne.
  - destruct (setPointer L raw h this b s) as [[h1 t1]|e] eqn:Hs;
      [|same_state].
    intros [= <- <- <-]. by apply setPointer_binds in Hs as [l ->].
Qed.

(** X9. Until [f] is set again, whatever else is called, [get(f)] keeps
    returning the value that was cached for it. *)
Lemma cached_value_persists ops : ∀ h this h' this' rs f v,
  truthy (caching this) = true →
  forallb (λ o, negb (sets_field f o)) ops = true →
  cache this !! f = Some v →
  run L raw ops (h, this) = (h', this', rs) →
  get L h' this' f = v.
Proof.
  induction ops as [|o ops IH]; intros h this h' this' rs f v Hc Hops Hf;
    cbn [run].
  - intros [= <- <- <-]. unfold get. by rewrite Hc, Hf.
  - destruct (step L raw (h, this) o) as [[h1 t1] r] eqn:Hstep.
    destruct (run L raw ops (h1, t1)) as [[h2 t2] rs'] eqn:Hrun.
    intros [= <- <- <-].
    simpl in Hops. apply andb_prop in Hops as [Ho Hops].
    apply negb_true_iff in Ho.
    pose proof (step_caching _ _ _ _ _ _ Hstep) as Hc1.
    pose proof (step_cached_keeps_value _ _ _ _ _ _ _ _ Hc Ho Hf Hstep) as Hf1.
    assert (Hc' : truthy (caching t1) = true) by congruence.
    exact (IH _ _ _ _ _ _ _ Hc' Hops Hf1 Hrun).
Qed.

(** ** Caching mode: nothing writes the cache back *)

Lemma step_cached_keeps_bytes h this o h' this' r l :
  truthy (caching this) = true →
  is_SetPointer o = false →
  buf this = Some l → l < length h →
  step L raw (h, this) o = (h', this', r) →
  caching this' = caching this
  ∧ buf this' = Some l ∧ l < length h' ∧ deref h' l = deref h l.
Proof.
  intros Hc Ho Hb Hl.
  destruct o as [f|f x| |b s| |]; simpl; try discriminate; try same_state.
  - unfold set. rewrite Hc. same_state.
  - intros [= <- <- <-]. split; [done|]. split; [done|].
    rewrite length_insert, length_app. split; [lia|].
    unfold deref. rewrite list_lookup_insert_ne by (unfold loc in *; lia).
    by rewrite lookup_app_l.
Qed.

(** X10. While caching is on and the view is not rebound, no sequence of calls
    changes a byte of the bound buffer: the pending values stay in the
    cache. *)
Lemma cached_values_never_written ops : ∀ h this h' this' rs l,
  truthy (caching this) = true →
  forallb (λ o, negb (is_SetPointer o)) ops = true →
  buf this = Some l → l < length h →
  run L raw ops (h, this) = (h', this', rs) →
  buf this' = Some l ∧ live h' this' = live h this.
Proof.
  induction ops as [|o ops IH]; intros h this h' this' rs l Hc Hops Hb Hl;
    cbn [run].
  - by intros [= <- <- <-].
  - destruct (step L raw (h, this) o) as [[h1 t1] r] eqn:Hstep.
    destruct (run L raw ops (h1, t1)) as [[h2 t2] rs'] eqn:Hrun.
    intros [= <- <- <-].
    simpl in Hops. apply andb_prop in Hops as [Ho Hops].
    apply negb_true_iff in Ho.
    destruct (step_cached_keeps_bytes _ _ _ _ _ _ _ Hc Ho Hb Hl Hstep)
      as (Hc1 & Hb1 & Hl1 & Hd1).
    assert (Hc' : truthy (caching t1) = true) by congruence.
    destruct (IH _ _ _ _ _ _ Hc' Hops Hb1 Hl1 Hrun) as [Hb2 Hlive].
    split; [done|]. rewrite Hlive. unfold live. by rewrite Hb1, Hb, Hd1.
Qed.

End Methods.

(** ** The [start] argument *)

(** C4, on the code. [setPointer(buf, start)] never reads [start]. With
    [this.length = 5], a Buffer holding the bytes 1 to 8 and [start = 4],
    only four bytes are left from [start] on, yet the call succeeds exactly
    as without [start], and field [a] reads byte 0 of the Buffer, not
    byte 4. *)
Theorem setPointer_ignores_start :
  (∀ L raw h this b s1 s2,
     setPointer L raw h this b s1 = setPointer L raw h this b s2)
  ∧ ∃ v,
      setPointer example_layout zeroed example_heap fresh_instance
        (VBuffer 1) (VNum 4) = Ok (example_heap, v)
      ∧ getPointer v = VBuffer 1
      ∧ get example_layout example_heap v "a" = VNum 1
      ∧ toJSON example_heap v
        = [VNum 1; VNum 2; VNum 3; VNum 4; VNum 5; VNum 6; VNum 7; VNum 8].
Proof.
  split; [intros; apply setPointer_start_irrelevant|].
  eexists. split; [vm_compute; reflexivity|].
  repeat split; vm_compute; reflexivity.
Qed.

(** ** The missing [serialize] *)

(** C1, on the code. [Struct.prototype] has no [serialize]: on a caching
    view of the example layout, after [a = 7] and [b = 1000], the property
    [serialize] is absent from the instance and from its prototype chain,
    the two values are still pending in the cache and the buffer still
    holds the five zero bytes it was allocated with. *)
Theorem serialize_is_not_defined :
  assoc "serialize" Struct_prototype = None
  ∧ ∃ h0 v0 h v,
      Struct_new example_layout zeroed [] VUndefined (VBool true)
      = Ok (h0, v0)
      ∧ run example_layout zeroed
          [OpSet "a" (VNum 7); OpSet "b" (VNum 1000)] (h0, v0)
        = (h, v, [Ok RVoid; Ok RVoid])
      ∧ lookup_property v "serialize" = Absent
      ∧ cache v !! "a" = Some (VNum 7)
      ∧ cache v !! "b" = Some (VNum 1000)
      ∧ toJSON h v = [VNum 0; VNum 0; VNum 0; VNum 0; VNum 0].
Proof.
  split; [reflexivity|].
  eexists _, _, _, _. split; [vm_compute; reflexivity|].
  split; [vm_compute; reflexivity|].
  repeat split; vm_compute; reflexivity.
Qed.

(** ** Adopting a Buffer *)

Section Binding.

Context (L : Layout) (raw : nat → byte).

Lemma live_insert h this l bs :
  buf this = Some l → l < length h → live (<[l := bs]> h) this = bs.
Proof.
  intros Hb Hl. unfold live, deref. rewrite Hb.
  by rewrite list_lookup_insert_eq.
Qed.


(** X2. [new Struct(buf, caching)] on a Buffer that is long enough, for
    distinct field names, allocates nothing and copies nothing: the heap is
    the one given and the view holds that Buffer. The flag is stored as it
    was passed, the cache is empty and the accessors are the fields in
    declaration order. Each accessor pair is built from [this.get] and
    [this.set], which have to be the prototype's methods still: no field
    is called [get] or [set]. *)
Theorem construction_adopts_buffer h l c :
  l < length h →
  this_length L ≤ length (deref h l) →
  NoDup (__fields L) →
  "get" ∉ __fields L → "set" ∉ __fields L →
  Struct_new L raw h (VBuffer l) c
  = Ok (h, {| buf := Some l; caching := c; cache := ∅;
              accessors := __fields L |}).
Proof.
  intros Hl Hlen Hnd Hget Hset. unfold Struct_new, Struct.
  by rewrite (Struct_init_succeeds L raw h fresh_instance (VBuffer l) c h l
                Hnd Hget Hset
                (setPointer_Buffer L raw h fresh_instance l VUndefined
                   Hlen)).
Qed.

Lemma forEach_defineProperty_distinct h l : ∀ this this',
  NoDup (accessors this) →
  forEach (defineProperty L h) l this = Ok this' →
  NoDup (accessors this ++ l).
Proof.
  intros this this' Hnd Hok.
  destruct (decide (NoDup (accessors this ++ l))) as [|Hdup]; [done|].
  destruct (forEach_defineProperty_dup L h l this Hdup Hnd) as [msg Hthrow].
  congruence.
Qed.

(** X3. A view that [new Struct] returns carries the flag it was given, an
    empty cache, and one accessor per field, in declaration order; the
    field names are then pairwise distinct. A declared field is found on
    the instance before the prototype is looked at, so a field called like
    a method hides it; any other name resolves as on a bare instance. As
    before, no field is called [get] or [set]. *)
Theorem constructed_view_shape h b c h' v :
  "get" ∉ __fields L → "set" ∉ __fields L →
  Struct_new L raw h b c = Ok (h', v) →
  (∃ l, buf v = Some l)
  ∧ caching v = c
  ∧ cache v = ∅
  ∧ accessors v = __fields L
  ∧ NoDup (__fields L)
  ∧ (∀ f, f ∈ __fields L → lookup_property v f = Accessor f)
  ∧ (∀ name, name ∉ __fields L →
             lookup_property v name = lookup_property fresh_instance name).
Proof.
  intros _ _ Hnew. unfold Struct_new, Struct in Hnew.
  assert (Hnd : NoDup (__fields L)).
  { unfold Struct_init in Hnew.
    destruct (setPointer L raw h fresh_instance b VUndefined)
      as [[h1 t1]|e] eqn:Hs; simpl in Hnew; [|discriminate].
    apply setPointer_binds in Hs as [l ->].
    destruct (forEach (defineProperty L h1) (__fields L)
                (with_caching c (with_buf l fresh_instance)))
      as [t3|e] eqn:Hf; simpl in Hnew; [|discriminate].
    apply forEach_defineProperty_distinct in Hf; [done|apply NoDup_nil_2]. }
  apply (Struct_init_Ok L raw) in Hnew as (l & _ & ->). simpl.
  split; [eauto|]. do 4 (split; [done|]). split.
  - intros f Hf. unfold lookup_property; simpl. by rewrite bool_decide_true.
  - intros name Hname. unfold lookup_property; simpl.
    rewrite bool_decide_false by done. reflexivity.
Qed.

(** ** Repeated field names *)

(** X4. With a field name that occurs twice, no view is ever constructed: the
    buffer is looked at first and its error, if any, is the one thrown;
    otherwise defining the accessors throws a TypeError. *)
Theorem repeated_field_prevents_construction h b c :
  ¬ NoDup (__fields L) →
  ∃ e, Struct_new L raw h b c = Throw e
       ∧ (setPointer L raw h fresh_instance b VUndefined = Throw e
          ∨ (∃ h' t, setPointer L raw h fresh_instance b VUndefined
                     = Ok (h', t))
            ∧ ∃ msg, e = TypeError msg).
Proof.
  intros Hdup. unfold Struct_new, Struct, Struct_init.
  destruct (setPointer L raw h fresh_instance b VUndefined)
    as [[h1 t1]|e] eqn:Hs; simpl.
  - apply setPointer_binds in Hs as Hl. destruct Hl as [l ->].
    destruct (forEach_defineProperty_dup L h1 (__fields L)
                (with_caching c (with_buf l fresh_instance)))
      as [msg ->]; simpl; [done|apply NoDup_nil_2|].
    eexists. split; [reflexivity|]. right. split; eauto.
  - exists e. split; [reflexivity|]. by left.
Qed.

(** ** Fields called [get] or [set] *)

Lemma forEach_app (f : View → string → result View) l1 l2 : ∀ this,
  forEach f (l1 ++ l2) this
  = let? this' := forEach f l1 this in forEach f l2 this'.
Proof.
  induction l1 as [|x l1 IH]; intros this; simpl; [done|].
  destruct (f this x) as [this'|e]; simpl; [apply IH|done].
Qed.

Lemma forEach_defineProperty_throws h l : ∀ this e,
  forEach (defineProperty L h) l this = Throw e → ∃ msg, e = TypeError msg.
Proof.
  induction l as [|x l IH]; intros this e; simpl; [discriminate|].
  destruct (defineProperty L h this x) as [t|e'] eqn:Hd; simpl.
  - apply IH.
  - intros [= <-]. by apply defineProperty_throws in Hd.
Qed.

(** X12. When a field called [get] or [set] is declared before another
    field, no view is ever constructed: the buffer is looked at first and
    its error, if any, is the one thrown; otherwise the accessor of that
    name hides the prototype's method, and binding it for the next field
    throws a TypeError. *)
Theorem field_named_get_or_set_prevents_construction h b c name pre x post :
  name = "get" ∨ name = "set" →
  __fields L = pre ++ name :: x :: post →
  ∃ e, Struct_new L raw h b c = Throw e
       ∧ (setPointer L raw h fresh_instance b VUndefined = Throw e
          ∨ (∃ h' t, setPointer L raw h fresh_instance b VUndefined
                     = Ok (h', t))
            ∧ ∃ msg, e = TypeError msg).
Proof.
  intros Hname Hfields. unfold Struct_new, Struct, Struct_init.
  destruct (setPointer L raw h fresh_instance b VUndefined)
    as [[h1 t1]|e] eqn:Hs; simpl; [|exists e; split; [done|by left]].
  assert (Hthrow : ∃ msg, forEach (defineProperty L h1) (__fields L)
                            (with_caching c t1) = Throw (TypeError msg)).
  { rewrite Hfields, forEach_app.
    destruct (forEach (defineProperty L h1) pre (with_caching c t1))
      as [t2|e] eqn:Hpre; simpl.
    - destruct (defineProperty L h1 t2 name) as [t3|e] eqn:Hd; simpl.
      + apply defineProperty_Ok in Hd as (_ & _ & _ & ->).
        apply (forEach_defineProperty_shadowed L h1 (x :: post) _ name);
          [done| |done].
        simpl. apply elem_of_app. right. by apply list_elem_of_singleton.
      + apply defineProperty_throws in Hd as [msg ->]. eauto.
    - apply forEach_defineProperty_throws in Hpre as [msg ->]. eauto. }
  destruct Hthrow as [msg ->]. simpl.
  eexists. split; [reflexivity|]. right. split; eauto.
Qed.

(** ** Immediate writes *)

(** X6. With caching off, on a view bound to a Buffer of the heap, a [set]
    whose codec write succeeds replaces the bytes of that Buffer by what the
    write produced and leaves every other Buffer, and the view, alone; each
    [get] that follows decodes the new bytes. *)
Theorem immediate_set_writes_through h this l f v bs' :
  truthy (caching this) = false →
  buf this = Some l → l < length h →
  __write L f v (deref h l) = Ok bs' →
  set L h this f v = Ok (<[l := bs']> h, this)
  ∧ live (<[l := bs']> h) this = bs'
  ∧ (∀ g, get L (<[l := bs']> h) this g = __read L g bs')
  ∧ (∀ l', l' ≠ l → deref (<[l := bs']> h) l' = deref h l').
Proof.
  intros Hc Hb Hl Hw.
  assert (Hlive : live (<[l := bs']> h) this = bs') by by apply live_insert.
  split; [|split; [done|split]].
  - unfold set, live, store. rewrite Hc, Hb, Hw. reflexivity.
  - intros g. unfold get. by rewrite Hc, Hlive.
  - intros l' Hne. unfold deref. by rewrite list_lookup_insert_ne.
Qed.

(** ** The length of the bound buffer *)



(** ** [toJSON] and [toBuffer] *)



(** ** Caching mode: what [get] returns *)

Lemma step_cached_other h this o h' this' r f :
  truthy (caching this) = true →
  sets_field f o = false →
  step L raw (h, this) o = (h', this', r) →
  cache this' !! f = cache this !! f.
Proof.
  intros Hc Ho.
  destruct o as [g|g x| |b s| |]; simpl; try same_state.
  - unfold set. rewrite Hc. intros [= <- <- <-]. simpl.
    simpl in Ho. apply String.eqb_neq in Ho.
    by rewrite lookup_insert_ne.
  - destruct (setPointer L raw h this b s) as [[h1 t1]|e] eqn:Hs;
      [|same_state].
    intros [= <- <- <-]. by apply setPointer_binds in Hs as [l ->].
Qed.

(** X11. With caching on and the view bound to a Buffer of the heap, after any
    sequence of calls other than [setPointer], [get(f)] returns the value
    of the last [set(f, _)] of the sequence and, when [f] was not set, what
    [get(f)] returned before the sequence. *)
Theorem cached_get_is_last_set ops : ∀ h this h' this' rs l f,
  truthy (caching this) = true →
  forallb (λ o, negb (is_SetPointer o)) ops = true →
  buf this = Some l → l < length h →
  run L raw ops (h, this) = (h', this', rs) →
  get L h' this' f = default (get L h this f) (last_set f ops).
Proof.
  induction ops as [|o ops IH]; intros h this h' this' rs l f Hc Hops Hb Hl;
    cbn [run].
  - by intros [= <- <- <-].
  - destruct (step L raw (h, this) o) as [[h1 t1] r] eqn:Hstep.
    destruct (run L raw ops (h1, t1)) as [[h2 t2] rs'] eqn:Hrun.
    intros [= <- <- <-].
    simpl in Hops. apply andb_prop in Hops as [Ho Hops].
    apply negb_true_iff in Ho.
    destruct (step_cached_keeps_bytes L raw _ _ _ _ _ _ _ Hc Ho Hb Hl Hstep)
      as (Hc1 & Hb1 & Hl1 & Hd1).
    assert (Hc' : truthy (caching t1) = true) by congruence.
    rewrite (IH _ _ _ _ _ _ f Hc' Hops Hb1 Hl1 Hrun).
    cbn [last_set]. destruct (last_set f ops) as [w|]; [done|]. simpl.
    destruct (sets_field f o) eqn:Hset.
    + destruct o as [g|g x| |b s| |]; try discriminate.
      simpl in Hset. rewrite Hset. simpl.
      simpl in Hstep. unfold set in Hstep. rewrite Hc in Hstep.
      injection Hstep as <- <- <-. apply String.eqb_eq in Hset as ->.
      unfold get. simpl. by rewrite Hc, lookup_insert_eq.
    + assert (Hget : get L h1 t1 f = get L h this f).
      { unfold get, live.
        rewrite (step_cached_other _ _ _ _ _ _ f Hc Hset Hstep).
        by rewrite Hc1, Hb1, Hb, Hd1. }
      rewrite Hget.
      destruct o as [g|g x| |b s| |]; try done.
      simpl in Hset. by rewrite Hset.
Qed.

End Binding.

(** ** The properties at concrete inputs *)

Lemma get_after_cached_set_witness :
  ∃ this',
    set example_layout example_heap (example_view (VBool true)) "a" (VNum 7)
    = Ok (example_heap, this')
    ∧ get example_layout example_heap this' "a" = VNum 7
    ∧ buf this' = Some 0
    ∧ live example_heap this' = [x00; x00; x00; x00; x00].
Proof.
  apply (get_after_cached_set example_layout example_heap
           (example_view (VBool true)) "a" (VNum 7)).
  reflexivity.
Defined.


Lemma non_buffer_TypeError_witness :
  setPointer example_layout zeroed [] fresh_instance (VStr "abc") VUndefined
  = Throw (TypeError
      "`Struct#setPointer(buf)` expects a Buffer, but a `NaN` was given.")
  ∧ Struct_call example_layout zeroed [] (VNum 42) VUndefined
    = Throw (TypeError
      "`Struct#setPointer(buf)` expects a Buffer, but a `NaN` was given.").
Proof.
  split.
  - apply (non_buffer_TypeError example_layout zeroed [] fresh_instance
             (VStr "abc") VUndefined VUndefined); reflexivity.
  - apply (non_buffer_TypeError example_layout zeroed [] fresh_instance
             (VNum 42) VUndefined VUndefined); reflexivity.
Defined.

Lemma Struct_call_drops_caching_witness :
  Struct_call example_layout zeroed [] VUndefined (VBool true)
  = Ok ([[x00; x00; x00; x00; x00]], example_view VUndefined)
  ∧ truthy (caching (example_view VUndefined)) = false.
Proof.
  assert (Hcall : Struct_call example_layout zeroed [] VUndefined (VBool true)
                  = Ok ([[x00; x00; x00; x00; x00]], example_view VUndefined))
    by (vm_compute; reflexivity).
  split; [exact Hcall|].
  apply (proj2 (Struct_call_drops_caching example_layout zeroed []
                  VUndefined (VBool true)) _ _ Hcall).
Defined.

Lemma uncached_view_is_direct_witness :
  cache (example_view (VBool false)) = ∅
  ∧ ∃ l bs,
      buf (example_view (VBool false)) = Some l
      ∧ [[x07; x00; x00; x00; x00]] !! l = Some bs
      ∧ (∀ f, get example_layout [[x07; x00; x00; x00; x00]]
                (example_view (VBool false)) f
              = __read example_layout f bs)
      ∧ (∀ f x bs', __write example_layout f x bs = Ok bs' →
           set example_layout [[x07; x00; x00; x00; x00]]
             (example_view (VBool false)) f x
           = Ok (<[l := bs']> [[x07; x00; x00; x00; x00]],
                 example_view (VBool false))
           ∧ <[l := bs']> [[x07; x00; x00; x00; x00]] !! l = Some bs'
           ∧ (∀ l', l' ≠ l →
                    <[l := bs']> [[x07; x00; x00; x00; x00]] !! l'
                    = [[x07; x00; x00; x00; x00]] !! l')
           ∧ ∀ g, get example_layout
                    (<[l := bs']> [[x07; x00; x00; x00; x00]])
                    (example_view (VBool false)) g
                  = __read example_layout g bs')
      ∧ (∀ f x e, __write example_layout f x bs = Throw e →
                  set example_layout [[x07; x00; x00; x00; x00]]
                    (example_view (VBool false)) f x = Throw e).
Proof.
  apply (uncached_view_is_direct example_layout zeroed [] VUndefined
           (VBool false) [[x00; x00; x00; x00; x00]]
           (example_view (VBool false))
           [OpSet "a" (VNum 7); OpGet "a"]
           [[x07; x00; x00; x00; x00]] (example_view (VBool false))
           [Ok RVoid; Ok (RValue (VNum 7))]).
  - reflexivity.
  - exact I.
  - vm_compute. reflexivity.
  - simpl. done.
  - vm_compute. reflexivity.
Defined.



(** ** More properties at concrete inputs *)



Lemma construction_adopts_buffer_witness :
  Struct_new example_layout zeroed example_heap (VBuffer 1) (VStr "yes")
  = Ok (example_heap,
        {| buf := Some 1; caching := VStr "yes"; cache := ∅;
           accessors := ["a"; "b"] |}).
Proof.
  apply (construction_adopts_buffer example_layout zeroed example_heap 1
           (VStr "yes")).
  - simpl. lia.
  - simpl. lia.
  - apply (bool_decide_unpack _). vm_compute. exact I.
  - apply (bool_decide_unpack _). vm_compute. exact I.
  - apply (bool_decide_unpack _). vm_compute. exact I.
Defined.

Lemma constructed_view_shape_witness :
  accessors (example_view (VBool true)) = ["a"; "b"]
  ∧ lookup_property (example_view (VBool true)) "b" = Accessor "b"
  ∧ lookup_property (example_view (VBool true)) "toJSON" = Method M_toJSON.
Proof.
  destruct (constructed_view_shape example_layout zeroed [] VUndefined
              (VBool true) [[x00; x00; x00; x00; x00]]
              (example_view (VBool true)))
    as (_ & _ & _ & Hacc & _ & Hfield & Hother).
  - apply (bool_decide_unpack _). vm_compute. exact I.
  - apply (bool_decide_unpack _). vm_compute. exact I.
  - vm_compute. reflexivity.
  - split; [exact Hacc|]. split.
    + apply Hfield. apply (bool_decide_unpack _). vm_compute. exact I.
    + rewrite Hother; [reflexivity|].
      apply (bool_decide_unpack _). vm_compute. exact I.
Defined.

Lemma repeated_field_prevents_construction_witness :
  ∃ e, Struct_new twice_layout zeroed [] VUndefined VUndefined = Throw e
       ∧ (setPointer twice_layout zeroed [] fresh_instance VUndefined
            VUndefined = Throw e
          ∨ (∃ h' t, setPointer twice_layout zeroed [] fresh_instance
                       VUndefined VUndefined = Ok (h', t))
            ∧ ∃ msg, e = TypeError msg).
Proof.
  apply (repeated_field_prevents_construction twice_layout zeroed []
           VUndefined VUndefined).
  apply (bool_decide_unpack _). vm_compute. exact I.
Defined.

Lemma field_named_get_or_set_prevents_construction_witness :
  ∃ e, Struct_new get_layout zeroed [] VUndefined VUndefined = Throw e
       ∧ (setPointer get_layout zeroed [] fresh_instance VUndefined
            VUndefined = Throw e
          ∨ (∃ h' t, setPointer get_layout zeroed [] fresh_instance
                       VUndefined VUndefined = Ok (h', t))
            ∧ ∃ msg, e = TypeError msg).
Proof.
  apply (field_named_get_or_set_prevents_construction get_layout zeroed []
           VUndefined VUndefined "get" [] "a" []).
  - left. reflexivity.
  - reflexivity.
Defined.

Lemma setPointer_Ok_witness :
  ∃ l, with_buf 1 (example_view VUndefined)
       = with_buf l (example_view VUndefined)
       ∧ l < length example_heap
       ∧ this_length example_layout ≤ length (deref example_heap l)
       ∧ length example_heap ≤ length example_heap
       ∧ (∀ k, k < length example_heap →
               example_heap !! k = example_heap !! k).
Proof.
  apply (setPointer_Ok example_layout zeroed example_heap
           (example_view VUndefined) (VBuffer 1) VUndefined).
  - simpl. lia.
  - vm_compute. reflexivity.
Defined.

Lemma immediate_set_writes_through_witness :
  set example_layout example_heap (example_view (VBool false)) "a" (VNum 7)
  = Ok (<[0 := [x07; x00; x00; x00; x00]]> example_heap,
        example_view (VBool false))
  ∧ ∀ g, get example_layout (<[0 := [x07; x00; x00; x00; x00]]> example_heap)
           (example_view (VBool false)) g
         = __read example_layout g [x07; x00; x00; x00; x00].
Proof.
  destruct (immediate_set_writes_through example_layout example_heap
              (example_view (VBool false)) 0 "a" (VNum 7)
              [x07; x00; x00; x00; x00])
    as (Hset & _ & Hget & _).
  - reflexivity.
  - reflexivity.
  - simpl. lia.
  - vm_compute. reflexivity.
  - split; [exact Hset|exact Hget].
Defined.



Lemma cached_value_persists_witness :
  ∃ h' this' rs,
    run example_layout zeroed
      [OpSet "b" (VNum 1); OpSetPointer VUndefined VUndefined; OpToJSON]
      (example_heap, pending_view) = (h', this', rs)
    ∧ get example_layout h' this' "a" = VNum 7.
Proof.
  destruct (run example_layout zeroed
      [OpSet "b" (VNum 1); OpSetPointer VUndefined VUndefined; OpToJSON]
      (example_heap, pending_view)) as [[h' this'] rs] eqn:Hrun.
  exists h', this', rs. split; [reflexivity|].
  refine (cached_value_persists example_layout zeroed _ example_heap
            pending_view _ _ _ "a" (VNum 7) _ _ _ Hrun).
  - reflexivity.
  - reflexivity.
  - apply lookup_insert_eq.
Defined.

Lemma cached_values_never_written_witness :
  ∃ h' this' rs,
    run example_layout zeroed
      [OpSet "a" (VNum 9); OpSet "b" (VNum 1000); OpToBuffer; OpGet "a"]
      (example_heap, pending_view) = (h', this', rs)
    ∧ buf this' = Some 0
    ∧ live h' this' = [x00; x00; x00; x00; x00].
Proof.
  destruct (run example_layout zeroed
      [OpSet "a" (VNum 9); OpSet "b" (VNum 1000); OpToBuffer; OpGet "a"]
      (example_heap, pending_view)) as [[h' this'] rs] eqn:Hrun.
  exists h', this', rs. split; [reflexivity|].
  refine (cached_values_never_written example_layout zeroed _ example_heap
            pending_view _ _ _ 0 _ _ _ _ Hrun).
  - reflexivity.
  - reflexivity.
  - reflexivity.
  - simpl. lia.
Defined.

Lemma cached_get_is_last_set_witness :
  ∃ h' this' rs,
    run example_layout zeroed
      [OpSet "a" (VNum 8); OpGet "a"; OpSet "a" (VNum 9); OpToBuffer]
      (example_heap, pending_view) = (h', this', rs)
    ∧ get example_layout h' this' "a" = VNum 9
    ∧ get example_layout h' this' "b" = VNum 0.
Proof.
  destruct (run example_layout zeroed
      [OpSet "a" (VNum 8); OpGet "a"; OpSet "a" (VNum 9); OpToBuffer]
      (example_heap, pending_view)) as [[h' this'] rs] eqn:Hrun.
  exists h', this', rs. split; [reflexivity|]. split.
  - refine (cached_get_is_last_set example_layout zeroed _ example_heap
              pending_view _ _ _ 0 "a" _ _ _ _ Hrun);
      [reflexivity|reflexivity|reflexivity|simpl; lia].
  - refine (cached_get_is_last_set example_layout zeroed _ example_heap
              pending_view _ _ _ 0 "b" _ _ _ _ Hrun);
      [reflexivity|reflexivity|reflexivity|simpl; lia].
Defined.

(** ** Where the documented behaviour and the code part *)


(** The factory accepts a field list with a repeated name, and one whose
    codec has neither a read nor a write. *)
Lemma createStruct_accepts_malformed_shapes :
  (∀ e, createStruct example_layout zeroed [field_a; field_a] ≠ Throw e)
  ∧ (∀ e, createStruct example_layout zeroed [field_unreadable] ≠ Throw e).
Proof. split; intros e; discriminate. Qed.
